(** * Escape-time fractals: the kernels and the grid sampler of [Fractals]

    A shallow embedding of [Fractal/fractals.py].  The Python methods are
    duck-typed: [mandelbrot] and [julia] run on whatever number they are
    handed (a Python [int], a [complex], a [numpy.complex128]) and use only
    [z**2], [+] and [abs(z) > 2] on it; [generate_fractal] adds [np.exp],
    [/] and [np.linspace] on the view bounds.  The embedding keeps that:
    the code is written over type classes of exactly these operations, and
    what is proved for every implementation of a class holds in double
    precision too.  The classes are implemented four times: by IEEE 754
    binary64 on Rocq's primitive floats (the numbers of the code), by the
    exact real and complex numbers (an arithmetic without rounding or
    overflow, where the laws some statements assume do hold), by complex
    numbers with rational parts and by Python integers (which evaluate). *)

From Corelib Require Import PrimFloat.
From Stdlib Require FloatOps SpecFloat.
From Stdlib Require Import ZArith Reals Lra Lia QArith String.
From stdpp Require Import base list strings.

Open Scope Z_scope.

(** * Part I: the program *)

(** ** Python and numpy values *)

(** [range(k)]: the indices [0, 1, ..., k-1]; empty when [k <= 0]. *)
Definition range (k : Z) : list nat := seq 0 (Z.to_nat k).

(** The operand of the kernels when its operations always return, as they
    do on numpy's scalars (the sampler passes [numpy.complex128], whose
    overflow is an infinity and a warning), on Python integers and on exact
    numbers.  Python's own [complex] raises [OverflowError] where [z**2]
    overflows: for it, see [Partial] and [Raising] below. *)
Class Quadratic (C : Type) : Type := {
  pow2 : C -> C;          (* z**2 *)
  add : C -> C -> C;      (* z + c *)
  abs_gt_2 : C -> bool    (* abs(z) > 2 *)
}.

(** The scalars of the sampler: view bounds, zoom, grid coordinates. *)
Class Scalar (F : Type) : Type := {
  of_int : Z -> F;        (* an int where a float is expected *)
  fexp : F -> F;          (* np.exp *)
  fadd : F -> F -> F;
  fsub : F -> F -> F;
  fmul : F -> F -> F;
  fdiv : F -> F -> F;
  is_zero : F -> bool     (* x == 0 *)
}.

(** [rect x y] is the point [x + y*1j]. *)
Class Plane (F C : Type) : Type := { rect : F -> F -> C }.

#[global] Instance scalar_inhabited {F : Type} `{Scalar F} : Inhabited F :=
  populate (of_int 0).

(** The exceptions the modelled code can raise: numpy's [ValueError], on a
    negative number of samples or a negative dimension, and Python's
    [OverflowError], where the square of a [complex] overflows. *)
Inductive exn : Type := ValueError | OverflowError.

(** A call that returns or raises. *)
Definition result (A : Type) : Type := (exn + A)%type.

#[global] Instance result_ret : MRet result := fun A a => inr a.
#[global] Instance result_bind : MBind result := fun A B f r =>
  match r with
  | inl e => inl e
  | inr a => f a
  end.

(** The operand of the kernels when its operations can raise: Python's own
    [complex] raises [OverflowError] from [z**2] and from [abs(z)]. *)
Class Partial (C : Type) : Type := {
  try_pow2 : C -> result C;          (* z**2 *)
  try_add : C -> C -> result C;      (* z + c *)
  try_abs_gt_2 : C -> result bool    (* abs(z) > 2 *)
}.

(** Operations that never raise, seen as operations that can. *)
#[global] Instance total_partial {C : Type} `{Quadratic C} : Partial C := {|
  try_pow2 z := inr (pow2 z);
  try_add z c := inr (add z c);
  try_abs_gt_2 z := inr (abs_gt_2 z)
|}.

(** [exact_in_float64 k]: [float64] holds [k], and every integer between [0]
    and [k], exactly; an array cell then holds the very count a kernel
    returned for the cap [k]. *)
Definition exact_in_float64 (k : Z) : Prop := - 2 ^ 53 <= k <= 2 ^ 53.

(** A two-dimensional array, as the list of its rows.  The cells of the
    array the sampler fills are [float64]; what it stores in them are the
    integers the kernels return, and a cell is kept as the integer it was
    given.  That is what the cell holds as long as the integer is
    [exact_in_float64]; statements about the values of a field are made for
    such caps. *)
Abbreviation matrix := (list (list Z)).

Definition tabulate (rows cols : nat) (f : nat -> nat -> Z) : matrix :=
  (fun i => (fun j => f i j) <$> seq 0 cols) <$> seq 0 rows.

(** [image[i, j] = v], for [i] and [j] within the array. *)
Definition set_cell (i j : nat) (v : Z) (image : matrix) : matrix :=
  alter (fun row => <[j := v]> row) i image.

Section Numpy.
Context {F : Type} `{Scalar F}.

(** [np.linspace(start, stop, num)].  numpy is not part of the repository;
    this follows [numpy.linspace] with its defaults ([endpoint=True]):
    [arange(0, num)] scaled by the step and shifted by [start] (scaled in
    two stages when the step is zero, numpy's care for denormal steps), the
    last sample overwritten with [stop] when there is more than one, and a
    [ValueError] for a negative [num]. *)
Definition np_linspace (start stop : F) (num : Z) : result (list F) :=
  if num <? 0 then inl ValueError
  else
    let div := num - 1 in
    let delta := fsub stop start in
    let y := (fun j => of_int (Z.of_nat j)) <$> range num in
    let y :=
      if 0 <? div then
        let step := fdiv delta (of_int div) in
        if is_zero step
        then (fun v => fmul (fdiv v (of_int div)) delta) <$> y
        else (fun v => fmul v step) <$> y
      else (fun v => fmul v delta) <$> y in
    let y := (fun v => fadd v start) <$> y in
    inr (if 1 <? num then <[Z.to_nat (num - 1) := stop]> y else y).

(** [np.empty((rows, cols))]: a new array whose cells are not initialised.
    [mem] is what the memory handed out happens to hold. *)
Definition np_empty (shape : Z * Z) (mem : nat -> nat -> Z) : result matrix :=
  if (shape.1 <? 0) || (shape.2 <? 0) then inl ValueError
  else inr (tabulate (Z.to_nat shape.1) (Z.to_nat shape.2) mem).

(** [np.where(image > t, t, image)]. *)
Definition np_where_gt (image : matrix) (t : Z) : matrix :=
  (fun row : list Z => (fun v => if v >? t then t else v) <$> row) <$> image.

End Numpy.

(** ** The kernels *)

Section Kernel.
Context {C : Type} `{Quadratic C}.

(** [Fractals.mandelbrot] from its [for] on: [z] is the current value,
    [idx] the indices [range(k)] still has to yield. *)
Fixpoint mandelbrot_for (c z : C) (k : Z) (idx : list nat) : Z :=
  match idx with
  | [] => k
  | i :: idx' =>
      let z := add (pow2 z) c in
      if abs_gt_2 z then Z.of_nat i else mandelbrot_for c z k idx'
  end.

Definition mandelbrot (c : C) (k : Z) : Z :=
  let z := c in
  mandelbrot_for c z k (range k).

(** [Fractals.julia]: the same loop, written out a second time in the
    source, with [z] an argument. *)
Fixpoint julia_for (z c : C) (k : Z) (idx : list nat) : Z :=
  match idx with
  | [] => k
  | i :: idx' =>
      let z := add (pow2 z) c in
      if abs_gt_2 z then Z.of_nat i else julia_for z c k idx'
  end.

Definition julia (z c : C) (k : Z) : Z := julia_for z c k (range k).

(** The orbit the specification speaks of: [orbit c z m] is [z] after [m]
    updates [z <- z**2 + c]. *)
Fixpoint orbit (c z : C) (m : nat) : C :=
  match m with
  | O => z
  | S m' => orbit c (add (pow2 z) c) m'
  end.

(** [first_escape c z i]: the update of loop iteration [i] (0-based) is the
    first after which [abs(z) > 2]. *)
Definition first_escape (c z : C) (i : nat) : Prop :=
  abs_gt_2 (orbit c z (S i)) = true /\
  forall j, (j < i)%nat -> abs_gt_2 (orbit c z (S j)) = false.

End Kernel.

(** The same two methods on an operand whose operations can raise: the
    exception leaves the loop and the method. *)
Module Raising.
Section Kernel.
Context {C : Type} `{Partial C}.

Fixpoint mandelbrot_for (c z : C) (k : Z) (idx : list nat) : result Z :=
  match idx with
  | [] => inr k
  | i :: idx' =>
      z2 ← try_pow2 z;
      z ← try_add z2 c;
      escaped ← try_abs_gt_2 z;
      if escaped : bool then inr (Z.of_nat i) else mandelbrot_for c z k idx'
  end.

Definition mandelbrot (c : C) (k : Z) : result Z :=
  let z := c in
  mandelbrot_for c z k (range k).

Fixpoint julia_for (z c : C) (k : Z) (idx : list nat) : result Z :=
  match idx with
  | [] => inr k
  | i :: idx' =>
      z2 ← try_pow2 z;
      z ← try_add z2 c;
      escaped ← try_abs_gt_2 z;
      if escaped : bool then inr (Z.of_nat i) else julia_for z c k idx'
  end.

Definition julia (z c : C) (k : Z) : result Z := julia_for z c k (range k).

End Kernel.
End Raising.

(** ** The object and its methods *)

Inductive Colorbar : Type := colorbar.

Section Sampler.
Context {F C : Type} `{Scalar F} `{Quadratic C} `{Plane F C}.

(** The data attributes of a [Fractals] object.  The matplotlib handles
    ([_fig], [_ax], the sliders and the button) are created by [__init__],
    never assigned again, and neither read nor written by the kernels and
    the sampler; they are left out. *)
Record Fractals : Type := {
  _x_min : F;
  _x_max : F;
  _y_min : F;
  _y_max : F;
  _n : Z;
  _k : Z;
  _zoom : F;
  _c : C;
  _fractal_type : string;
  _width : Z;
  _height : Z;
  _cmap : string;
  _threshold : option Z;
  _cbar : option Colorbar
}.

(** [Fractals.__init__]. *)
Definition init (x_min x_max y_min y_max : F) (c : C) (n k width height : Z)
    (fractal_type cmap : string) (threshold : option Z) : Fractals :=
  {| _x_min := x_min; _x_max := x_max; _y_min := y_min; _y_max := y_max;
     _n := n; _k := k; _zoom := of_int 0; _c := c;
     _fractal_type := fractal_type; _width := width; _height := height;
     _cmap := cmap; _threshold := threshold; _cbar := None |}.

(** A method: it reads and may assign the attributes of [self], and returns
    or raises. *)
Definition Method (A : Type) : Type := Fractals -> result A * Fractals.

#[global] Instance method_ret : MRet Method := fun A a self => (inr a, self).
#[global] Instance method_bind : MBind Method := fun A B f m self =>
  match m self with
  | (inl e, self') => (inl e, self')
  | (inr a, self') => f a self'
  end.

Definition get_self : Method Fractals := fun self => (inr self, self).
Definition set_self (self' : Fractals) : Method unit := fun _ => (inr tt, self').
Definition call {A : Type} (r : result A) : Method A := fun self => (r, self).

(** What a call returns, and the object it leaves. *)
Definition returned {A : Type} (m : Method A) (self : Fractals) : result A :=
  (m self).1.
Definition object_after {A : Type} (m : Method A) (self : Fractals) : Fractals :=
  (m self).2.

(** Lines 83 to 85 of [generate_fractal]: the coordinates [x] and [y]. *)
Definition grid (self : Fractals) : result (list F * list F) :=
  let zoom := fexp (_zoom self) in
  x ← np_linspace (fdiv (_x_min self) zoom) (fdiv (_x_max self) zoom) (_n self);
  y ← np_linspace (fdiv (_y_min self) zoom) (fdiv (_y_max self) zoom) (_n self);
  mret (x, y).

(** The body of the two nested loops of [generate_fractal]. *)
Definition pixel (self : Fractals) (x y : list F) (i j : nat)
    (image : matrix) : matrix :=
  if String.eqb (_fractal_type self) "mandelbrot" then
    let c1 := rect (x !!! j) (y !!! i) in
    set_cell i j (mandelbrot c1 (_k self)) image
  else if String.eqb (_fractal_type self) "julia" then
    let z := rect (x !!! j) (y !!! i) in
    set_cell i j (julia z (_c self) (_k self)) image
  else image.

(** [Fractals.generate_fractal].  [mem] is the content of the memory
    [np.empty] hands out.  ([@jit] is taken to change nothing of what the
    method computes.) *)
Definition generate_fractal (mem : nat -> nat -> Z) : Method matrix :=
  self ← get_self;
  '(x, y) ← call (grid self);
  image ← call (np_empty (_n self, _n self) mem);
  mret (foldl (fun image i =>
                 foldl (fun image j => pixel self x y i j image)
                       image (range (_n self)))
              image (range (_n self))).

(** What [generate_fractal] leaves in cell [(i, j)]: the value a kernel
    returned, or what [np.empty] found there. *)
Definition pixel_value (self : Fractals) (x y : list F)
    (mem : nat -> nat -> Z) (i j : nat) : Z :=
  if String.eqb (_fractal_type self) "mandelbrot" then
    mandelbrot (rect (x !!! j) (y !!! i)) (_k self)
  else if String.eqb (_fractal_type self) "julia" then
    julia (rect (x !!! j) (y !!! i)) (_c self) (_k self)
  else mem i j.

(** The clamp of [plot_fractal]: lines 103 and 104. *)
Definition threshold_clamp (threshold : option Z) (image : matrix) : matrix :=
  match threshold with
  | Some t => np_where_gt image t
  | None => image
  end.

(** [Fractals.plot_fractal], up to the drawing: it returns the image it
    hands to [imshow], and creates the colour bar on the first call. *)
Definition plot_fractal (mem : nat -> nat -> Z) : Method matrix :=
  image ← generate_fractal mem;
  self ← get_self;
  let image := threshold_clamp (_threshold self) image in
  match _cbar self with
  | None =>
      set_self {| _x_min := _x_min self; _x_max := _x_max self;
                  _y_min := _y_min self; _y_max := _y_max self;
                  _n := _n self; _k := _k self; _zoom := _zoom self;
                  _c := _c self; _fractal_type := _fractal_type self;
                  _width := _width self; _height := _height self;
                  _cmap := _cmap self; _threshold := _threshold self;
                  _cbar := Some colorbar |};;
      mret image
  | Some _ => mret image
  end.

(** [Fractals.update_iter] and [Fractals.update_zoom]. *)
Definition update_iter (val : Z) : Method unit :=
  self ← get_self;
  set_self {| _x_min := _x_min self; _x_max := _x_max self;
              _y_min := _y_min self; _y_max := _y_max self;
              _n := _n self; _k := val; _zoom := _zoom self;
              _c := _c self; _fractal_type := _fractal_type self;
              _width := _width self; _height := _height self;
              _cmap := _cmap self; _threshold := _threshold self;
              _cbar := _cbar self |}.

Definition update_zoom (val : F) : Method unit :=
  self ← get_self;
  set_self {| _x_min := _x_min self; _x_max := _x_max self;
              _y_min := _y_min self; _y_max := _y_max self;
              _n := _n self; _k := _k self; _zoom := val;
              _c := _c self; _fractal_type := _fractal_type self;
              _width := _width self; _height := _height self;
              _cmap := _cmap self; _threshold := _threshold self;
              _cbar := _cbar self |}.

(** [Fractals.update_plot] and [Fractals.update_button_clicked]; the event
    the button passes is not looked at. *)
Definition update_plot (mem : nat -> nat -> Z) : Method matrix :=
  plot_fractal mem.

Definition update_button_clicked {E : Type} (event : E)
    (mem : nat -> nat -> Z) : Method matrix :=
  update_plot mem.

(** [same_view self self']: the two objects agree on every attribute
    [generate_fractal] reads: the bounds, the zoom, [n], [k], the kind, and
    the Julia constant when the kind is ['julia']. *)
Definition same_view (self self' : Fractals) : Prop :=
  _x_min self = _x_min self' /\ _x_max self = _x_max self' /\
  _y_min self = _y_min self' /\ _y_max self = _y_max self' /\
  _zoom self = _zoom self' /\ _n self = _n self' /\ _k self = _k self' /\
  _fractal_type self = _fractal_type self' /\
  (_fractal_type self = "julia" -> _c self = _c self').

(** [cell image i j]: the entry [image[i, j]], when there is one. *)
Definition cell (image : matrix) (i j : nat) : option Z :=
  image !! i ≫= (fun row => row !! j).

End Sampler.

Arguments Fractals F C : clear implicits.
Arguments Method F C A : clear implicits.

(** ** The numbers the code is run at *)

(** Exact complex numbers, with Python's attribute names: the arithmetic
    of the real numbers, without rounding and without overflow, not that of
    [float64]. *)
Record complex : Type := Complex { real : R; imag : R }.

#[global] Instance complex_quadratic : Quadratic complex := {|
  pow2 z := Complex (real z * real z - imag z * imag z)
                    (real z * imag z + imag z * real z);
  add z c := Complex (real z + real c) (imag z + imag c);
  abs_gt_2 z :=
    if Rgt_dec (sqrt (real z * real z + imag z * imag z)) 2 then true else false
|}.

#[global] Instance R_scalar : Scalar R := {|
  of_int := IZR;
  fexp := exp;
  fadd := Rplus;
  fsub := Rminus;
  fmul := Rmult;
  fdiv := Rdiv;
  is_zero x := if Req_dec_T x 0 then true else false
|}.

#[global] Instance complex_plane : Plane R complex := {| rect x y := Complex x y |}.

(** Complex numbers with rational parts.  There is no square root in [Q]:
    [abs(z) > 2] is decided as [real**2 + imag**2 > 4]. *)
Record qcomplex : Type := QComplex { qreal : Q; qimag : Q }.

#[global] Instance qcomplex_quadratic : Quadratic qcomplex := {|
  pow2 z := QComplex (Qred (qreal z * qreal z - qimag z * qimag z))
                     (Qred (qreal z * qimag z + qimag z * qreal z));
  add z c := QComplex (Qred (qreal z + qreal c)) (Qred (qimag z + qimag c));
  abs_gt_2 z := negb (Qle_bool (qreal z * qreal z + qimag z * qimag z) 4)
|}.

(** Python integers. *)
#[global] Instance int_quadratic : Quadratic Z := {|
  pow2 z := z ^ 2;
  add z c := z + c;
  abs_gt_2 z := Z.abs z >? 2
|}.

(** ** Double precision *)

(** An [int] as a [float64]: the nearest one, ties to even. *)
Definition float_of_int (z : Z) : float :=
  FloatOps.SF2Prim
    (SpecFloat.binary_normalize FloatOps.prec FloatOps.emax z 0 false).

(** The scalars of numpy, [np.float64], with the operations of IEEE 754
    binary64.  [np.exp] is the [exp] of the C library, whose rounding the
    standard leaves open: it is a parameter. *)
Definition float64_scalar (np_exp : float -> float) : Scalar float := {|
  of_int := float_of_int;
  fexp := np_exp;
  fadd x y := (x + y)%float;
  fsub x y := (x - y)%float;
  fmul x y := (x * y)%float;
  fdiv x y := (x / y)%float;
  is_zero x := (x =? 0)%float
|}.

(** Python's own [complex]: two [float64] parts. *)
Record pycomplex : Type := PyComplex { py_real : float; py_imag : float }.

(** The product of CPython ([_Py_c_prod]). *)
Definition c_prod (a b : pycomplex) : pycomplex :=
  PyComplex (py_real a * py_real b - py_imag a * py_imag b)%float
            (py_real a * py_imag b + py_imag a * py_real b)%float.

(** [z**2] on a Python [complex] ([complex_pow] with the small integer
    exponent [2]): the power by squaring, which computes [1 * (z * z)], then
    [OverflowError] when a part of the result is infinite. *)
Definition complex_pow2 (z : pycomplex) : result pycomplex :=
  let r := c_prod (PyComplex 1 0) (c_prod z z) in
  if is_infinity (py_real r) || is_infinity (py_imag r)
  then inl OverflowError
  else inr r.

(** ** The words of the specification *)

(** [in_range k v]: [v] is in [[0, k]]. *)
Definition in_range (k v : Z) : Prop := 0 <= v <= k.

(** [shape n image]: [image] is [n] by [n]. *)
Definition shape (n : nat) (image : matrix) : Prop :=
  length image = n /\ Forall (fun row => length row = n) image.

(** [with_endpoints lo hi xs]: [xs] starts at [lo] and ends at [hi]. *)
Definition with_endpoints (lo hi : R) (xs : list R) : Prop :=
  head xs = Some lo /\ last xs = Some hi.

(** [raises r]: the call did not return. *)
Definition raises {A : Type} (r : result A) : Prop :=
  match r with
  | inl _ => True
  | inr _ => False
  end.

(** ** Objects to run the code at *)

(** [Fractals(0, 1, 0, 1, 0j, n, k, 8, 8, fractal_type, 'hot')]. *)
Definition unit_square (n k : Z) (fractal_type : string) : Fractals R complex :=
  init 0%R 1%R 0%R 1%R (Complex 0 0) n k 8 8 fractal_type "hot" None.

(** The complex conjugate and the opposite of a point. *)
Definition conj (z : complex) : complex := Complex (real z) (- imag z).
Definition neg (z : complex) : complex := Complex (- real z) (- imag z).

(** [Fractals(-1e308, 1e308, -1e308, 1e308, 0j, 1, 10, 8, 8, 'mandelbrot',
    'hot')] in double precision; the bounds are the [float64] nearest to
    [-1e308] and [1e308]. *)
Definition wide_window (np_exp : float -> float) : Fractals float pycomplex :=
  init (H := float64_scalar np_exp)
       (-0x1.1ccf385ebc8ap+1023)%float 0x1.1ccf385ebc8ap+1023%float
       (-0x1.1ccf385ebc8ap+1023)%float 0x1.1ccf385ebc8ap+1023%float
       (PyComplex 0 0) 1 10 8 8 "mandelbrot" "hot" None.

(** The Python [complex] [1e200+0j]; the real part is the [float64] nearest
    to [1e200]. *)
Definition huge_point : pycomplex := PyComplex 0x1.4e718d7d7625ap+664 0.

(** ** The grid, in the arithmetic at hand *)

Section GridWords.
Context {F C : Type} `{Scalar F}.

(** The scale and the scaled bounds of lines 83 to 85. *)
Definition scale (self : Fractals F C) : F := fexp (_zoom self).
Definition x_lo (self : Fractals F C) : F := fdiv (_x_min self) (scale self).
Definition x_hi (self : Fractals F C) : F := fdiv (_x_max self) (scale self).
Definition y_lo (self : Fractals F C) : F := fdiv (_y_min self) (scale self).
Definition y_hi (self : Fractals F C) : F := fdiv (_y_max self) (scale self).

(** The step between two of [n] samples over [[lo, hi]]. *)
Definition linspace_step (lo hi : F) (n : Z) : F :=
  fdiv (fsub hi lo) (of_int (n - 1)).

(** The one sample there is when [n = 1]: [0*(hi - lo) + lo]. *)
Definition single_sample (lo hi : F) : F :=
  fadd (fmul (of_int 0) (fsub hi lo)) lo.

(** [spaced_by_steps lo hi n xs]: [xs] are [n] values over [[lo, hi]]; a
    single one is [single_sample lo hi]; of two or more the last is [hi]
    itself and, the step not being zero, the [j]-th before it is [j] steps
    above [lo], as the arithmetic computes it. *)
Definition spaced_by_steps (lo hi : F) (n : Z) (xs : list F) : Prop :=
  length xs = Z.to_nat n /\
  (n = 1 -> xs = [single_sample lo hi]) /\
  (2 <= n -> last xs = Some hi) /\
  (2 <= n -> is_zero (linspace_step lo hi n) = false ->
   forall j, (j < Z.to_nat n - 1)%nat ->
     xs !! j = Some (fadd (fmul (of_int (Z.of_nat j)) (linspace_step lo hi n)) lo)).

(** [both_ends lo hi xs]: [xs] starts at [lo] and ends at [hi]. *)
Definition both_ends (lo hi : F) (xs : list F) : Prop :=
  head xs = Some lo /\ last xs = Some hi.

End GridWords.


(** ** The escape loop *)

Section KernelFacts.
Context {C : Type} `{Quadratic C}.

(** No escape during the [m] iterations left: the loop falls through. *)
Lemma mandelbrot_for_bounded (c z : C) k a m :
  (forall j, (j < m)%nat -> abs_gt_2 (orbit c z (S j)) = false) ->
  mandelbrot_for c z k (seq a m) = k.
Proof.
  revert z a; induction m as [|m IH]; intros z a Hb; [reflexivity|].
  cbn [seq mandelbrot_for].
  pose proof (Hb 0%nat ltac:(lia)) as H0. cbn in H0. rewrite H0.
  apply IH. intros j Hj. apply (Hb (S j)). lia.
Qed.

(** First escape at the [i]-th of the [m] iterations left: the loop
    returns that iteration's index. *)
Lemma mandelbrot_for_escape (c z : C) k a m i :
  (i < m)%nat -> first_escape c z i ->
  mandelbrot_for c z k (seq a m) = Z.of_nat (a + i).
Proof.
  revert z a i; induction m as [|m IH]; intros z a i Hi [He Hb]; [lia|].
  cbn [seq mandelbrot_for].
  destruct i as [|i].
  - cbn in He. rewrite He. f_equal. lia.
  - pose proof (Hb 0%nat ltac:(lia)) as H0. cbn in H0. rewrite H0.
    rewrite (IH _ (S a) i); [f_equal; lia | lia |].
    split; [exact He|]. intros j Hj. apply (Hb (S j)). lia.
Qed.

(** The loop returns [k] or one of the indices it was given. *)
Lemma mandelbrot_for_cases (c z : C) k idx :
  mandelbrot_for c z k idx = k \/
  exists i, i ∈ idx /\ mandelbrot_for c z k idx = Z.of_nat i.
Proof.
  revert z; induction idx as [|i idx IH]; intros z; [left; reflexivity|].
  cbn [mandelbrot_for].
  destruct (abs_gt_2 (add (pow2 z) c)).
  - right. exists i. split; [left | reflexivity].
  - destruct (IH (add (pow2 z) c)) as [E | (i' & Hin & E)]; [left; exact E|].
    right. exists i'. split; [right; exact Hin | exact E].
Qed.

(** The loop of [julia] is the loop of [mandelbrot]. *)
Lemma julia_for_mandelbrot_for (z c : C) k idx :
  julia_for z c k idx = mandelbrot_for c z k idx.
Proof.
  revert z; induction idx as [|i idx IH]; intros z; [reflexivity|].
  cbn [julia_for mandelbrot_for].
  destruct (abs_gt_2 (add (pow2 z) c)); [reflexivity | apply IH].
Qed.

Lemma elem_of_range i k : i ∈ range k -> 0 <= Z.of_nat i < k.
Proof. unfold range. rewrite elem_of_seq. lia. Qed.

Lemma mandelbrot_for_in_range (c z : C) k :
  0 <= k -> in_range k (mandelbrot_for c z k (range k)).
Proof.
  intros Hk. unfold in_range.
  destruct (mandelbrot_for_cases c z k (range k)) as [E | (i & Hin & E)];
    rewrite E; [lia|].
  apply elem_of_range in Hin. lia.
Qed.

Lemma mandelbrot_in_range (c : C) k : 0 <= k -> in_range k (mandelbrot c k).
Proof. apply mandelbrot_for_in_range. Qed.

Lemma julia_in_range (z c : C) k : 0 <= k -> in_range k (julia z c k).
Proof.
  intros Hk. unfold julia. rewrite julia_for_mandelbrot_for.
  by apply mandelbrot_for_in_range.
Qed.

(** With a cap that is not positive the loop body never runs. *)
Lemma mandelbrot_nonpositive (c : C) k : k <= 0 -> mandelbrot c k = k.
Proof.
  intros Hk. unfold mandelbrot, range.
  replace (Z.to_nat k) with 0%nat by lia. reflexivity.
Qed.

Lemma julia_nonpositive (z c : C) k : k <= 0 -> julia z c k = k.
Proof.
  intros Hk. unfold julia, range.
  replace (Z.to_nat k) with 0%nat by lia. reflexivity.
Qed.

End KernelFacts.

(** ** Filling an array cell by cell *)

Section Fill.

(** Assigning the cells [a, ..., a+b-1] of a row. *)
Lemma fill_row_lookup (g : nat -> Z) (row : list Z) a b idx :
  foldl (fun row j => <[j := g j]> row) row (seq a b) !! idx =
  if decide ((a <= idx < a + b)%nat /\ (idx < length row)%nat)
  then Some (g idx) else row !! idx.
Proof.
  revert a row; induction b as [|b IH]; intros a row; cbn [seq foldl].
  - case_decide; [lia | reflexivity].
  - rewrite IH, length_insert, list_lookup_insert.
    repeat case_decide; try reflexivity; try lia.
    destruct_and!. by subst.
Qed.

Lemma fill_row (g : nat -> Z) (row : list Z) :
  foldl (fun row j => <[j := g j]> row) row (seq 0 (length row)) =
  g <$> seq 0 (length row).
Proof.
  apply list_eq; intros idx.
  rewrite fill_row_lookup, list_lookup_fmap.
  destruct (decide (idx < length row)%nat) as [Hlt|Hge].
  - rewrite lookup_seq_lt by done. case_decide; [reflexivity | lia].
  - rewrite lookup_seq_ge by lia. case_decide; [lia|].
    apply lookup_ge_None_2. lia.
Qed.

Lemma alter_twice {A : Type} (f g : A -> A) (l : list A) i :
  alter f i (alter g i l) = alter (fun a => f (g a)) i l.
Proof.
  revert i; induction l as [|a l IH]; intros [|i]; cbn; try reflexivity.
  f_equal. apply IH.
Qed.

Lemma foldl_pointwise {A B : Type} (f g : A -> B -> A) (l : list B) a :
  (forall a b, f a b = g a b) -> foldl f a l = foldl g a l.
Proof.
  intros Hfg. revert a; induction l as [|b l IH]; intros a; [reflexivity|].
  cbn [foldl]. rewrite Hfg. apply IH.
Qed.

(** The inner loop works on row [i] alone. *)
Lemma fill_inner (f : nat -> nat -> Z) (image : matrix) i cols :
  foldl (fun image j => set_cell i j (f i j) image) image cols =
  alter (fun row => foldl (fun row j => <[j := f i j]> row) row cols) i image.
Proof.
  revert image; induction cols as [|j cols IH]; intros image; cbn [foldl].
  - symmetry. by apply list_alter_id.
  - rewrite IH. unfold set_cell. by rewrite alter_twice.
Qed.

(** Altering the rows [a, ..., a+b-1], each by its own function. *)
Lemma alter_rows_lookup (h : nat -> list Z -> list Z) (image : matrix) a b idx :
  foldl (fun image i => alter (h i) i image) image (seq a b) !! idx =
  if decide (a <= idx < a + b)%nat then h idx <$> image !! idx else image !! idx.
Proof.
  revert a image; induction b as [|b IH]; intros a image; cbn [seq foldl].
  - case_decide; [lia | reflexivity].
  - rewrite IH, list_lookup_alter.
    repeat case_decide; try reflexivity; try lia. by subst.
Qed.

(** The two nested loops assign every cell of an [n] by [n] array. *)
Lemma fill_tabulate (f : nat -> nat -> Z) (image : matrix) n :
  shape n image ->
  foldl (fun image i =>
           foldl (fun image j => set_cell i j (f i j) image) image (seq 0 n))
        image (seq 0 n) = tabulate n n f.
Proof.
  intros [Hlen Hrows].
  rewrite (foldl_pointwise _ (fun image i => alter (fun row =>
     foldl (fun row j => <[j := f i j]> row) row (seq 0 n)) i image))
    by (intros; apply fill_inner).
  apply list_eq; intros idx. unfold tabulate.
  rewrite alter_rows_lookup, list_lookup_fmap.
  destruct (decide (idx < n)%nat) as [Hlt|Hge].
  - rewrite lookup_seq_lt by done. case_decide; [|lia].
    destruct (lookup_lt_is_Some_2 image idx ltac:(lia)) as [row Hrow].
    rewrite Hrow. cbn. f_equal.
    rewrite Forall_lookup in Hrows. specialize (Hrows _ _ Hrow). cbn in Hrows.
    rewrite <- Hrows at 1. rewrite fill_row, Hrows. reflexivity.
  - rewrite lookup_seq_ge by lia. case_decide; [lia|].
    apply lookup_ge_None_2. lia.
Qed.

(** Two nested loops whose body assigns nothing leave the array as it is. *)
Lemma fill_nothing (image : matrix) (rows cols : list nat) :
  foldl (fun image i => foldl (fun image j => image) image cols) image rows = image.
Proof.
  assert (Hin : forall img : matrix, foldl (fun image j => image) img cols = img)
    by (intros img; induction cols as [|j cols IH]; [reflexivity | exact IH]).
  induction rows as [|i rows IH]; [reflexivity|].
  cbn [foldl]. rewrite Hin. exact IH.
Qed.

Lemma shape_tabulate n f : shape n (tabulate n n f).
Proof.
  unfold shape, tabulate. split.
  - by rewrite length_fmap, length_seq.
  - apply Forall_fmap, Forall_forall. intros i _. cbn.
    by rewrite length_fmap, length_seq.
Qed.

Lemma tabulate_lookup n f i j :
  (i < n)%nat -> (j < n)%nat ->
  tabulate n n f !! i ≫= (fun row => row !! j) = Some (f i j).
Proof.
  intros Hi Hj. unfold tabulate.
  rewrite list_lookup_fmap, lookup_seq_lt by done. cbn.
  by rewrite list_lookup_fmap, lookup_seq_lt.
Qed.

(** Every cell of a tabulated array is one of the tabulated values. *)
Lemma tabulate_Forall (P : Z -> Prop) n f :
  (forall i j, (i < n)%nat -> (j < n)%nat -> P (f i j)) ->
  Forall (Forall P) (tabulate n n f).
Proof.
  intros Hf. unfold tabulate.
  apply Forall_fmap, Forall_forall. intros i Hi%elem_of_seq. cbn.
  apply Forall_fmap, Forall_forall. intros j Hj%elem_of_seq. cbn.
  apply Hf; lia.
Qed.

End Fill.

(** ** The sampler *)

Section SamplerFacts.
Context {F C : Type} `{Scalar F} `{Quadratic C} `{Plane F C}.

Lemma np_linspace_negative (start stop : F) num :
  num < 0 -> np_linspace start stop num = inl ValueError.
Proof. intros Hn. unfold np_linspace. by rewrite (proj2 (Z.ltb_lt _ _) Hn). Qed.

Lemma np_linspace_length (start stop : F) num :
  0 <= num ->
  exists xs, np_linspace start stop num = inr xs /\ length xs = Z.to_nat num.
Proof.
  intros Hn. unfold np_linspace.
  rewrite (proj2 (Z.ltb_ge _ _) Hn).
  eexists; split; [reflexivity|].
  assert (Hr : length (range num) = Z.to_nat num) by apply length_seq.
  repeat case_match; rewrite ?length_insert, !length_fmap; exact Hr.
Qed.

Lemma grid_negative (self : Fractals F C) :
  _n self < 0 -> grid self = inl ValueError.
Proof. intros Hn. unfold grid. rewrite !np_linspace_negative by done. reflexivity. Qed.

Lemma grid_returns (self : Fractals F C) :
  0 <= _n self ->
  exists x y, grid self = inr (x, y) /\
    length x = Z.to_nat (_n self) /\ length y = Z.to_nat (_n self).
Proof.
  intros Hn. unfold grid.
  destruct (np_linspace_length (fdiv (_x_min self) (fexp (_zoom self)))
              (fdiv (_x_max self) (fexp (_zoom self))) _ Hn) as (x & -> & Hx).
  destruct (np_linspace_length (fdiv (_y_min self) (fexp (_zoom self)))
              (fdiv (_y_max self) (fexp (_zoom self))) _ Hn) as (y & -> & Hy).
  by exists x, y.
Qed.

(** The loop body assigns [pixel_value] or nothing. *)
Lemma pixel_cases (self : Fractals F C) x y mem :
  (forall i j image,
      pixel self x y i j image = set_cell i j (pixel_value self x y mem i j) image)
  \/ (forall i j image, pixel self x y i j image = image) /\
     (forall i j, pixel_value self x y mem i j = mem i j).
Proof.
  unfold pixel, pixel_value.
  destruct (String.eqb (_fractal_type self) "mandelbrot"); [by left|].
  destruct (String.eqb (_fractal_type self) "julia"); [by left | by right].
Qed.

(** What [generate_fractal] returns when it returns. *)
Lemma generate_fractal_returned (self : Fractals F C) mem x y :
  0 <= _n self -> grid self = inr (x, y) ->
  returned (generate_fractal mem) self =
  inr (tabulate (Z.to_nat (_n self)) (Z.to_nat (_n self))
         (pixel_value self x y mem)).
Proof.
  intros Hn Hg.
  unfold returned, generate_fractal, mbind, method_bind, get_self, call, np_empty.
  rewrite Hg. cbn [fst snd].
  rewrite (proj2 (Z.ltb_ge _ _) Hn). cbn [orb].
  unfold mret, method_ret. cbn [fst]. f_equal. unfold range.
  destruct (pixel_cases self x y mem) as [Hset | [Hid Hmem]].
  - rewrite (foldl_pointwise _ (fun image i =>
      foldl (fun image j => set_cell i j (pixel_value self x y mem i j) image)
            image (seq 0 (Z.to_nat (_n self))))).
    + apply fill_tabulate, shape_tabulate.
    + intros image i. apply foldl_pointwise. intros; apply Hset.
  - rewrite (foldl_pointwise _ (fun image i =>
      foldl (fun image j => image) image (seq 0 (Z.to_nat (_n self))))).
    + rewrite fill_nothing. unfold tabulate.
      apply list_fmap_ext; intros _ i _. apply list_fmap_ext; intros _ j _.
      symmetry; apply Hmem.
    + intros image i. apply foldl_pointwise. intros; apply Hid.
Qed.

(** With one of the two kinds, every cell holds what a kernel returned. *)
Lemma pixel_value_in_range (self : Fractals F C) x y mem i j :
  0 <= _k self ->
  _fractal_type self = "mandelbrot" \/ _fractal_type self = "julia" ->
  in_range (_k self) (pixel_value self x y mem i j).
Proof.
  intros Hk [Ht|Ht]; unfold pixel_value; rewrite Ht; cbn.
  - by apply mandelbrot_in_range.
  - by apply julia_in_range.
Qed.

Lemma pixel_value_nonpositive (self : Fractals F C) x y mem i j :
  _k self <= 0 ->
  _fractal_type self = "mandelbrot" \/ _fractal_type self = "julia" ->
  pixel_value self x y mem i j = _k self.
Proof.
  intros Hk [Ht|Ht]; unfold pixel_value; rewrite Ht; cbn.
  - by apply mandelbrot_nonpositive.
  - by apply julia_nonpositive.
Qed.

Lemma pixel_value_other (self : Fractals F C) x y mem i j :
  _fractal_type self <> "mandelbrot" -> _fractal_type self <> "julia" ->
  pixel_value self x y mem i j = mem i j.
Proof.
  intros Hm Hj. unfold pixel_value.
  rewrite (proj2 (String.eqb_neq _ _) Hm), (proj2 (String.eqb_neq _ _) Hj).
  reflexivity.
Qed.

(** A negative resolution: [np.linspace] raises, before the loops. *)
Lemma generate_fractal_negative (self : Fractals F C) mem :
  _n self < 0 -> returned (generate_fractal mem) self = inl ValueError.
Proof.
  intros Hn.
  unfold returned, generate_fractal, mbind, method_bind, get_self, call.
  rewrite grid_negative by done. reflexivity.
Qed.

(** With one of the two kinds, what the memory held does not matter. *)
Lemma generate_fractal_ignores_memory (self : Fractals F C) mem mem' :
  _fractal_type self = "mandelbrot" \/ _fractal_type self = "julia" ->
  returned (generate_fractal mem) self = returned (generate_fractal mem') self.
Proof.
  intros Ht.
  destruct (Z.lt_ge_cases (_n self) 0) as [Hn|Hn].
  - by rewrite !generate_fractal_negative.
  - destruct (grid_returns self Hn) as (x & y & Hg & _).
    rewrite !(generate_fractal_returned self _ x y Hn Hg). f_equal.
    unfold tabulate.
    apply list_fmap_ext; intros _ i _. apply list_fmap_ext; intros _ j _.
    unfold pixel_value. by destruct Ht as [-> | ->].
Qed.

(** [generate_fractal] assigns no attribute. *)
Lemma generate_fractal_object (self : Fractals F C) mem :
  object_after (generate_fractal mem) self = self.
Proof.
  unfold object_after, generate_fractal, mbind, method_bind, get_self, call.
  destruct (grid self) as [e|[x y]]; [reflexivity|].
  destruct (np_empty _ mem); reflexivity.
Qed.

(** [plot_fractal] shows the clamped field of [generate_fractal]. *)
Lemma plot_fractal_returned (self : Fractals F C) mem image :
  returned (generate_fractal mem) self = inr image ->
  returned (plot_fractal mem) self = inr (threshold_clamp (_threshold self) image).
Proof.
  unfold returned, plot_fractal, mbind, method_bind. intros Hret.
  pose proof (generate_fractal_object self mem) as Hobj. unfold object_after in Hobj.
  destruct (generate_fractal mem self) as [r self']. cbn in Hret, Hobj. subst.
  cbn. destruct (_cbar self); reflexivity.
Qed.

(** The two setters assign the attribute they are named after. *)
Lemma update_iter_object (self : Fractals F C) val :
  _k (object_after (update_iter val) self) = val /\
  _zoom (object_after (update_iter val) self) = _zoom self.
Proof. split; reflexivity. Qed.

Lemma update_zoom_object (self : Fractals F C) val :
  _zoom (object_after (update_zoom val) self) = val /\
  _k (object_after (update_zoom val) self) = _k self.
Proof. split; reflexivity. Qed.

End SamplerFacts.

(** ** The grid over the real numbers *)

Section RealGrid.
Open Scope R_scope.

(** One sample: the lower end of the interval. *)
Lemma np_linspace_one (start stop : R) : np_linspace start stop 1 = inr [start].
Proof.
  unfold np_linspace, range. replace (1 - 1)%Z with 0%Z by lia. 
  change (Z.to_nat 1) with 1%nat. cbn. do 2 f_equal. ring.
Qed.

End RealGrid.

(** ** The escape test over the real numbers *)

Section ComplexFacts.
Open Scope R_scope.

(** [abs(z) > 2] without the square root. *)
Lemma abs_gt_2_outside (z : complex) :
  4 < real z * real z + imag z * imag z -> abs_gt_2 z = true.
Proof.
  intros Hz. cbn. destruct (Rgt_dec _ 2) as [_|Hn]; [reflexivity|].
  exfalso. apply Hn. unfold Rgt.
  rewrite <- (sqrt_square 2) by lra.
  apply sqrt_lt_1; lra.
Qed.

Lemma abs_gt_2_inside (z : complex) :
  real z * real z + imag z * imag z <= 4 -> abs_gt_2 z = false.
Proof.
  intros Hz. cbn. destruct (Rgt_dec _ 2) as [Hgt|_]; [|reflexivity].
  exfalso. unfold Rgt in Hgt.
  rewrite <- (sqrt_square 2) in Hgt by lra.
  apply sqrt_lt_0_alt in Hgt. lra.
Qed.

(** The orbit of [0] stays at [0]. *)
Lemma orbit_zero m : orbit (Complex 0 0) (Complex 0 0) m = Complex 0 0.
Proof.
  assert (Hstep : add (pow2 (Complex 0 0)) (Complex 0 0) = Complex 0 0)
    by (cbn; f_equal; ring).
  induction m as [|m IH]; [reflexivity|].
  cbn [orbit]. rewrite Hstep. exact IH.
Qed.

End ComplexFacts.

(** ** The kernels on an operand that can raise *)

Section RaisingFacts.
Context {C : Type}.

(** When the loop returns, it returns [k] or one of its indices. *)
Lemma raising_for_cases `{Partial C} (c z : C) k idx v :
  Raising.mandelbrot_for c z k idx = inr v ->
  v = k \/ exists i, i ∈ idx /\ v = Z.of_nat i.
Proof.
  revert z; induction idx as [|i idx IH]; intros z Hv; cbn in Hv.
  - left. congruence.
  - destruct (try_pow2 z) as [e|z2]; [discriminate|]. cbn in Hv.
    destruct (try_add z2 c) as [e|z']; [discriminate|]. cbn in Hv.
    destruct (try_abs_gt_2 z') as [e|[|]]; [discriminate| |]; cbn in Hv.
    + right. exists i. split; [left | congruence].
    + destruct (IH _ Hv) as [E | (i' & Hin & E)]; [left; exact E|].
      right. exists i'. split; [right; exact Hin | exact E].
Qed.

Lemma raising_julia_for `{Partial C} (z c : C) k idx :
  Raising.julia_for z c k idx = Raising.mandelbrot_for c z k idx.
Proof.
  revert z; induction idx as [|i idx IH]; intros z; [reflexivity|].
  cbn. destruct (try_pow2 z) as [e|z2]; [reflexivity|]. cbn.
  destruct (try_add z2 c) as [e|z']; [reflexivity|]. cbn.
  destruct (try_abs_gt_2 z') as [e|[|]]; [reflexivity | reflexivity | apply IH].
Qed.

Lemma raising_in_range `{Partial C} (c z : C) k v :
  0 <= k -> Raising.mandelbrot_for c z k (range k) = inr v -> in_range k v.
Proof.
  intros Hk Hv. unfold in_range.
  destruct (raising_for_cases c z k _ v Hv) as [-> | (i & Hin & ->)]; [lia|].
  apply elem_of_range in Hin. lia.
Qed.

(** A square that raises at the first turn makes the method raise. *)
Lemma raising_first_square `{Partial C} (c z : C) k e :
  1 <= k -> try_pow2 z = inl e ->
  Raising.mandelbrot_for c z k (range k) = inl e.
Proof.
  intros Hk Hsq. unfold range.
  replace (Z.to_nat k) with (S (Z.to_nat (k - 1))) by lia.
  cbn. rewrite Hsq. reflexivity.
Qed.

(** With operations that never raise, the loop returns what the loop over
    total operations computes. *)
Lemma raising_total `{Quadratic C} (c z : C) k idx :
  Raising.mandelbrot_for c z k idx = inr (mandelbrot_for c z k idx).
Proof.
  revert z; induction idx as [|i idx IH]; intros z; [reflexivity|].
  cbn. destruct (abs_gt_2 (add (pow2 z) c)); [reflexivity | apply IH].
Qed.

End RaisingFacts.

(** ** The samples of [np.linspace], in the arithmetic at hand *)

Section GridFacts.
Context {F C : Type} `{Scalar F}.

Lemma np_linspace_spaced (lo hi : F) (n : Z) :
  0 <= n ->
  exists xs, np_linspace lo hi n = inr xs /\ spaced_by_steps lo hi n xs.
Proof.
  intros Hn.
  destruct (np_linspace_length lo hi n Hn) as (xs & Hxs & Hlen).
  exists xs. split; [exact Hxs|]. split; [exact Hlen|].
  unfold np_linspace in Hxs. rewrite (proj2 (Z.ltb_ge _ _) Hn) in Hxs.
  injection Hxs as Hxs.
  split; [|split].
  - intros ->. rewrite <- Hxs. reflexivity.
  - intros H2. rewrite <- Hxs at 1.
    rewrite (proj2 (Z.ltb_lt 1 n)) by lia.
    rewrite last_lookup, length_insert.
    match goal with |- <[_ := _]> ?l !! _ = _ =>
      assert (Hl : length l = Z.to_nat n)
        by (repeat case_match; rewrite !length_fmap; apply length_seq)
    end.
    rewrite Hl. replace (Nat.pred (Z.to_nat n)) with (Z.to_nat (n - 1)) by lia.
    apply list_lookup_insert_eq. lia.
  - intros H2 Hstep j Hj. rewrite <- Hxs.
    rewrite (proj2 (Z.ltb_lt 1 n)), (proj2 (Z.ltb_lt 0 (n - 1))) by lia.
    fold (linspace_step lo hi n). rewrite Hstep.
    rewrite list_lookup_insert_ne by lia.
    unfold range. rewrite !list_lookup_fmap, lookup_seq_lt by lia.
    reflexivity.
Qed.

Lemma grid_spaced (self : Fractals F C) :
  0 <= _n self ->
  exists x y,
    grid self = inr (x, y) /\
    spaced_by_steps (x_lo self) (x_hi self) (_n self) x /\
    spaced_by_steps (y_lo self) (y_hi self) (_n self) y.
Proof.
  intros Hn.
  destruct (np_linspace_spaced (x_lo self) (x_hi self) _ Hn) as (x & Hx & Hsx).
  destruct (np_linspace_spaced (y_lo self) (y_hi self) _ Hn) as (y & Hy & Hsy).
  exists x, y. split; [|by split].
  unfold grid. fold (scale self). fold (x_lo self) (x_hi self) (y_lo self) (y_hi self).
  rewrite Hx, Hy. reflexivity.
Qed.

(** Two samples or more, a step that is not zero and [0*step + lo = lo]:
    both ends of the interval are among the samples. *)
Lemma spaced_both_ends (lo hi : F) (n : Z) xs :
  spaced_by_steps lo hi n xs -> 2 <= n ->
  is_zero (linspace_step lo hi n) = false ->
  fadd (fmul (of_int 0) (linspace_step lo hi n)) lo = lo ->
  both_ends lo hi xs.
Proof.
  intros (_ & _ & Hlast & Hsteps) H2 Hstep Hzero. split; [|by apply Hlast].
  rewrite head_lookup, (Hsteps H2 Hstep 0%nat) by lia.
  change (Z.of_nat 0) with 0. by rewrite Hzero.
Qed.

(** With [exp(0) = 1] and [v / 1 = v], a zoom of [0] leaves the bounds. *)
Lemma unscaled_bounds (self : Fractals F C) :
  fexp (of_int 0) = of_int 1 -> (forall v : F, fdiv v (of_int 1) = v) ->
  _zoom self = of_int 0 ->
  scale self = of_int 1 /\
  x_lo self = _x_min self /\ x_hi self = _x_max self /\
  y_lo self = _y_min self /\ y_hi self = _y_max self.
Proof.
  intros Hexp Hdiv Hzoom.
  assert (Hs : scale self = of_int 1) by (unfold scale; by rewrite Hzoom).
  unfold x_lo, x_hi, y_lo, y_hi. rewrite Hs, !Hdiv. done.
Qed.

End GridFacts.

(** Two runs in double precision: four samples over [[0, 1]], and three over
    an interval one unit in the last place wide, where two samples coincide. *)
Example np_linspace_float64_four (np_exp : float -> float) :
  np_linspace (H := float64_scalar np_exp) 0%float 1%float 4 =
  inr [0%float; 0x1.5555555555555p-2%float; 0x1.5555555555555p-1%float; 1%float].
Proof. vm_compute. reflexivity. Qed.

Example np_linspace_float64_narrow (np_exp : float -> float) :
  np_linspace (H := float64_scalar np_exp) 1%float 0x1.0000000000001p+0%float 3 =
  inr [1%float; 1%float; 0x1.0000000000001p+0%float].
Proof. vm_compute. reflexivity. Qed.

(** * Part III: the properties of the specification *)

(** C1: when the orbit of [c] under [z <- z**2 + c], started at [z = c],
    first has [abs(z) > 2] after the update of loop iteration [i]
    (0-based), [mandelbrot(c, k)] returns [i] for every [k >= i]; and
    [mandelbrot(3+0j, 10)] is [0]. *)
Theorem mandelbrot_returns_first_escape :
  (forall (C : Type) (Q : Quadratic C) (c : C) (i : nat) (k : Z),
      first_escape c c i -> Z.of_nat i <= k -> mandelbrot c k = Z.of_nat i)
  /\ mandelbrot (Complex 3 0) 10 = 0.
Proof.
  assert (Hgen : forall (C : Type) (Q : Quadratic C) (c : C) (i : nat) (k : Z),
      first_escape c c i -> Z.of_nat i <= k -> mandelbrot c k = Z.of_nat i).
  { intros C Q c i k Hesc Hk. unfold mandelbrot, range.
    destruct (decide (Z.of_nat i = k)) as [<-|Hne].
    - (* the cap stops the loop just before the escape *)
      rewrite Nat2Z.id. apply mandelbrot_for_bounded. apply Hesc.
    - rewrite (mandelbrot_for_escape c c k 0 (Z.to_nat k) i); [done | lia | done]. }
  split; [exact Hgen|].
  apply (Hgen complex _ (Complex 3 0) 0%nat 10); [|lia].
  split; [|intros j Hj; lia].
  apply abs_gt_2_outside. cbn. lra.
Qed.

Lemma mandelbrot_returns_first_escape_witness :
  mandelbrot (QComplex (1 # 2) 0) 7 = 3 /\ mandelbrot (QComplex (1 # 2) 0) 3 = 3.
Proof.
  split.
  - apply (proj1 mandelbrot_returns_first_escape qcomplex _ (QComplex (1 # 2) 0) 3%nat 7);
      [|lia].
    split; [reflexivity|].
    intros [|[|[|j]]] Hj; [reflexivity | reflexivity | reflexivity | lia].
  - apply (proj1 mandelbrot_returns_first_escape qcomplex _ (QComplex (1 # 2) 0) 3%nat 3);
      [|lia].
    split; [reflexivity|].
    intros [|[|[|j]]] Hj; [reflexivity | reflexivity | reflexivity | lia].
Defined.

(** C3: when [abs(z) <= 2] after each of the first [k] updates of the orbit
    of [c], [mandelbrot(c, k)] returns [k], for every [k >= 1]; and
    [mandelbrot(0, 50)] is [50]. *)
Theorem mandelbrot_bounded_returns_cap :
  (forall (C : Type) (Q : Quadratic C) (c : C) (k : Z),
      1 <= k ->
      (forall j, (j < Z.to_nat k)%nat -> abs_gt_2 (orbit c c (S j)) = false) ->
      mandelbrot c k = k)
  /\ mandelbrot (Complex 0 0) 50 = 50.
Proof.
  assert (Hgen : forall (C : Type) (Q : Quadratic C) (c : C) (k : Z),
      1 <= k ->
      (forall j, (j < Z.to_nat k)%nat -> abs_gt_2 (orbit c c (S j)) = false) ->
      mandelbrot c k = k).
  { intros C Q c k _ Hb. unfold mandelbrot, range.
    by apply mandelbrot_for_bounded. }
  split; [exact Hgen|].
  apply Hgen; [lia|].
  intros j _. rewrite orbit_zero.
  apply abs_gt_2_inside. cbn. lra.
Qed.

Lemma mandelbrot_bounded_returns_cap_witness :
  mandelbrot (0 : Z) 50 = 50 /\ mandelbrot (QComplex (-1) 0) 20 = 20.
Proof.
  split.
  - apply (proj1 mandelbrot_bounded_returns_cap Z _ 0 50); [lia|].
    intros j _. induction j as [|j IH]; [reflexivity | exact IH].
  - apply (proj1 mandelbrot_bounded_returns_cap qcomplex _ (QComplex (-1) 0) 20); [lia|].
    intros j Hj. change (Z.to_nat 20) with 20%nat in Hj.
    do 20 (destruct j as [|j]; [reflexivity|]). lia.
Defined.

(** C4: [julia(c, c, k) = mandelbrot(c, k)] for every [c] and every [k]. *)
Theorem julia_seeded_with_c_is_mandelbrot :
  forall (C : Type) (Q : Quadratic C) (c : C) (k : Z),
    julia c c k = mandelbrot c k.
Proof.
  intros C Q c k. unfold julia, mandelbrot.
  apply julia_for_mandelbrot_for.
Qed.

(** C2, the input: the Python [complex] [1e200+0j] with the cap [10].  Its
    square overflows and [z**2] raises [OverflowError]; so do [mandelbrot] and
    [julia] at the first turn of their loop, whatever [+] and [abs] are:
    neither returns an integer. *)
Lemma python_complex_square_overflows :
  complex_pow2 huge_point = inl OverflowError /\
  (forall P : Partial pycomplex,
      @try_pow2 pycomplex P = complex_pow2 ->
      Raising.mandelbrot huge_point 10 = inl OverflowError /\
      Raising.julia huge_point (PyComplex 0 0) 10 = inl OverflowError).
Proof.
  assert (Hsq : complex_pow2 huge_point = inl OverflowError)
    by (vm_compute; reflexivity).
  split; [exact Hsq|].
  intros P HP.
  assert (Hraise : try_pow2 huge_point = inl OverflowError) by (rewrite HP; exact Hsq).
  split.
  - apply raising_first_square; [lia | exact Hraise].
  - unfold Raising.julia. rewrite raising_julia_for.
    apply raising_first_square; [lia | exact Hraise].
Qed.

(** C2, as the code has it: for every input and every cap [k >= 1],
    [mandelbrot] and [julia] return an integer in [[0, k]] whenever they
    return, and they return whenever [z**2], [+] and [abs] raise nothing, as
    on the [numpy.complex128] points that [generate_fractal] passes; so, with
    [fractal_type] ['mandelbrot'] or ['julia'], [n >= 1] and a cap
    [1 <= k <= 2**53], [generate_fractal] returns an [n] by [n] array whose
    every entry is in [[0, k]]. *)
Theorem iteration_counts_in_range_when_returned :
  (forall (C : Type) (P : Partial C) (z c : C) (k v : Z),
      1 <= k ->
      (Raising.mandelbrot c k = inr v -> in_range k v) /\
      (Raising.julia z c k = inr v -> in_range k v))
  /\ (forall (C : Type) (Q : Quadratic C) (z c : C) (k : Z),
      1 <= k ->
      Raising.mandelbrot c k = inr (mandelbrot c k) /\
      Raising.julia z c k = inr (julia z c k) /\
      in_range k (mandelbrot c k) /\ in_range k (julia z c k))
  /\ (forall (F C : Type) (S : Scalar F) (Q : Quadratic C) (P : Plane F C)
             (self : Fractals F C) (mem : nat -> nat -> Z),
        1 <= _k self -> exact_in_float64 (_k self) -> 1 <= _n self ->
        _fractal_type self = "mandelbrot" \/ _fractal_type self = "julia" ->
        exists image,
          returned (generate_fractal mem) self = inr image /\
          shape (Z.to_nat (_n self)) image /\
          Forall (Forall (in_range (_k self))) image).
Proof.
  split; [|split].
  - intros C P z c k v Hk. split.
    + apply raising_in_range. lia.
    + unfold Raising.julia. rewrite raising_julia_for.
      apply raising_in_range. lia.
  - intros C Q z c k Hk.
    split; [apply raising_total|].
    split; [unfold Raising.julia; rewrite raising_julia_for;
            unfold julia; rewrite julia_for_mandelbrot_for; apply raising_total|].
    split; [apply mandelbrot_in_range | apply julia_in_range]; lia.
  - intros F C S Q P self mem Hk _ Hn Ht.
    destruct (grid_returns self ltac:(lia)) as (x & y & Hg & _).
    eexists. split; [apply (generate_fractal_returned self mem x y); [lia | exact Hg]|].
    split; [apply shape_tabulate|].
    apply tabulate_Forall. intros i j _ _.
    apply pixel_value_in_range; [lia | exact Ht].
Qed.

Lemma iteration_counts_in_range_when_returned_witness :
  in_range 7 3 /\
  Raising.mandelbrot (QComplex (1 # 2) 0) 7 = inr (mandelbrot (QComplex (1 # 2) 0) 7) /\
  exists image,
    returned (generate_fractal (fun _ _ => 7)) (unit_square 1 10 "julia") = inr image /\
    shape 1 image /\ Forall (Forall (in_range 10)) image.
Proof.
  pose proof iteration_counts_in_range_when_returned as (Hret & Htotal & Hsampler).
  split; [|split].
  - apply (proj1 (Hret qcomplex _ (QComplex 0 0) (QComplex (1 # 2) 0) 7 3 ltac:(lia))).
    vm_compute. reflexivity.
  - exact (proj1 (Htotal qcomplex _ (QComplex 0 0) (QComplex (1 # 2) 0) 7 ltac:(lia))).
  - apply (Hsampler R complex _ _ _ (unit_square 1 10 "julia") (fun _ _ => 7));
      [cbn; lia | unfold exact_in_float64; cbn [_k unit_square init]; lia | cbn; lia |].
    right. reflexivity.
Defined.











(** C9, the failing input: a [fractal_type] that is neither kind.  Two
    calls on the same object return what [np.empty] handed out each time:
    here [[[0]]] once and [[[1]]] once. *)
Theorem unknown_kind_is_not_deterministic :
  returned (generate_fractal (fun _ _ => 0)) (unit_square 1 10 "burning_ship")
    = inr [[0]] /\
  returned (generate_fractal (fun _ _ => 1)) (unit_square 1 10 "burning_ship")
    = inr [[1]] /\
  object_after (generate_fractal (fun _ _ => 0)) (unit_square 1 10 "burning_ship")
    = unit_square 1 10 "burning_ship".
Proof.
  split; [vm_compute; reflexivity|].
  split; [vm_compute; reflexivity|].
  apply generate_fractal_object.
Qed.

(** C10: with a [fractal_type] other than ['mandelbrot'] and ['julia'],
    [generate_fractal] raises nothing and returns the [n] by [n] array of
    [np.empty] with no cell assigned: each cell holds what the memory held,
    in [[0, k]] or not. *)
Theorem unknown_kind_returns_uninitialised :
  forall (F C : Type) (S : Scalar F) (Q : Quadratic C) (P : Plane F C)
         (self : Fractals F C) (mem : nat -> nat -> Z),
    _fractal_type self <> "mandelbrot" -> _fractal_type self <> "julia" ->
    0 <= _n self ->
    returned (generate_fractal mem) self = np_empty (_n self, _n self) mem
    /\ exists image,
        returned (generate_fractal mem) self = inr image /\
        shape (Z.to_nat (_n self)) image /\
        forall i j, (i < Z.to_nat (_n self))%nat -> (j < Z.to_nat (_n self))%nat ->
          image !! i ≫= (fun row => row !! j) = Some (mem i j).
Proof.
  intros F C S Q P self mem Hm Hj Hn.
  destruct (grid_returns self Hn) as (x & y & Hg & _).
  pose proof (generate_fractal_returned self mem x y Hn Hg) as Hret.
  assert (Htab : tabulate (Z.to_nat (_n self)) (Z.to_nat (_n self))
                   (pixel_value self x y mem)
                 = tabulate (Z.to_nat (_n self)) (Z.to_nat (_n self)) mem).
  { unfold tabulate.
    apply list_fmap_ext; intros _ i _. apply list_fmap_ext; intros _ j _.
    by apply pixel_value_other. }
  rewrite Htab in Hret. split.
  - rewrite Hret. unfold np_empty. cbn [fst snd].
    by rewrite (proj2 (Z.ltb_ge _ _) Hn).
  - eexists. split; [exact Hret|]. split; [apply shape_tabulate|].
    intros i j Hi Hjn. by apply tabulate_lookup.
Qed.

Lemma unknown_kind_returns_uninitialised_witness :
  returned (generate_fractal (fun _ _ => -1)) (unit_square 1 10 "burning_ship")
    = inr [[-1]] /\ ~ in_range 10 (-1).
Proof.
  destruct (unknown_kind_returns_uninitialised R complex _ _ _
              (unit_square 1 10 "burning_ship") (fun _ _ => -1))
    as [Hret _]; [discriminate | discriminate | cbn; lia |].
  split; [exact Hret|]. unfold in_range. lia.
Defined.

(** * Part IV: further properties of the code *)

(** ** The escape loop, read backwards *)

Section KernelLaws.
Context {C : Type} `{Quadratic C}.

(** The loop either falls through, and then nothing escaped, or returns the
    index of the first escape. *)
Lemma mandelbrot_for_spec (c z : C) k a m :
  ((forall j, (j < m)%nat -> abs_gt_2 (orbit c z (S j)) = false) /\
   mandelbrot_for c z k (seq a m) = k)
  \/ exists i, (i < m)%nat /\ first_escape c z i /\
       mandelbrot_for c z k (seq a m) = Z.of_nat (a + i).
Proof.
  revert z a; induction m as [|m IH]; intros z a.
  - left. split; [intros j Hj; lia | reflexivity].
  - cbn [seq mandelbrot_for].
    destruct (abs_gt_2 (add (pow2 z) c)) eqn:E.
    + right. exists 0%nat. split; [lia|]. split; [|f_equal; lia].
      split; [exact E | intros j Hj; lia].
    + destruct (IH (add (pow2 z) c) (S a)) as [[Hb Hk] | (i & Hi & [He Hb] & Hv)].
      * left. split; [|exact Hk].
        intros [|j] Hj; [exact E | apply Hb; lia].
      * right. exists (S i). split; [lia|]. split.
        -- split; [exact He|]. intros [|j] Hj; [exact E | apply Hb; lia].
        -- rewrite Hv. f_equal. lia.
Qed.

(** A loop cut short at [k] returns what the longer loop returns, capped. *)
Lemma mandelbrot_for_raise_cap (c z : C) k k' a m m' :
  Z.of_nat (a + m) = k -> (m <= m')%nat -> k <= k' ->
  mandelbrot_for c z k (seq a m) = Z.min k (mandelbrot_for c z k' (seq a m')).
Proof.
  revert z a m'; induction m as [|m IH]; intros z a m' Hk Hm Hkk.
  - cbn [seq mandelbrot_for].
    destruct (mandelbrot_for_cases c z k' (seq a m')) as [E | (i & Hin & E)];
      rewrite E; [lia|].
    apply elem_of_seq in Hin. lia.
  - destruct m' as [|m']; [lia|].
    cbn [seq mandelbrot_for].
    destruct (abs_gt_2 (add (pow2 z) c)); [lia|].
    apply IH; lia.
Qed.

Lemma mandelbrot_for_any_cap (c z : C) k k' :
  k <= k' ->
  mandelbrot_for c z k (range k) = Z.min k (mandelbrot_for c z k' (range k')).
Proof.
  intros Hkk. destruct (Z.lt_ge_cases k 0) as [Hneg|Hpos].
  - unfold range at 1. replace (Z.to_nat k) with 0%nat by lia.
    cbn [seq mandelbrot_for].
    destruct (mandelbrot_for_cases c z k' (range k')) as [E | (i & Hin & E)];
      rewrite E; lia.
  - unfold range. apply mandelbrot_for_raise_cap; lia.
Qed.

(** Shifting the indices of the loop by one shifts what it returns. *)
Lemma mandelbrot_for_shift (c z : C) k a m :
  mandelbrot_for c z k (seq (S a) m) = 1 + mandelbrot_for c z (k - 1) (seq a m).
Proof.
  revert z a; induction m as [|m IH]; intros z a; cbn [seq mandelbrot_for].
  - lia.
  - destruct (abs_gt_2 (add (pow2 z) c)); [lia | apply IH].
Qed.

(** A map of the plane that commutes with the update and keeps the escape
    test carries one run of the loop onto another. *)
Lemma mandelbrot_for_conjugate (h : C -> C) (c c' : C) :
  (forall z, h (add (pow2 z) c) = add (pow2 (h z)) c') ->
  (forall z, abs_gt_2 (h z) = abs_gt_2 z) ->
  forall z k idx, mandelbrot_for c' (h z) k idx = mandelbrot_for c z k idx.
Proof.
  intros Hstep Habs z k idx. revert z.
  induction idx as [|i idx IH]; intros z; [reflexivity|].
  cbn [mandelbrot_for].
  rewrite <- Hstep, Habs, IH. reflexivity.
Qed.

End KernelLaws.



(** X2: what a kernel returns tells what the orbit did.  A value below the
    cap is the index of the first update after which [abs(z) > 2]; the cap
    itself means that no update of the [k] made it so. *)
Theorem kernels_return_the_first_escape :
  forall (C : Type) (Q : Quadratic C) (z c : C) (k : Z),
    (julia z c k < k -> first_escape c z (Z.to_nat (julia z c k))) /\
    (julia z c k = k ->
     forall j, (j < Z.to_nat k)%nat -> abs_gt_2 (orbit c z (S j)) = false) /\
    (mandelbrot c k < k -> first_escape c c (Z.to_nat (mandelbrot c k))) /\
    (mandelbrot c k = k ->
     forall j, (j < Z.to_nat k)%nat -> abs_gt_2 (orbit c c (S j)) = false).
Proof.
  intros C Q z c k.
  assert (Hfor : forall z0 : C,
    (mandelbrot_for c z0 k (range k) < k ->
     first_escape c z0 (Z.to_nat (mandelbrot_for c z0 k (range k)))) /\
    (mandelbrot_for c z0 k (range k) = k ->
     forall j, (j < Z.to_nat k)%nat -> abs_gt_2 (orbit c z0 (S j)) = false)).
  { intros z0. unfold range.
    destruct (mandelbrot_for_spec c z0 k 0 (Z.to_nat k))
      as [[Hb Hk] | (i & Hi & Hesc & Hv)]; rewrite ?Hk, ?Hv.
    - split; [lia | intros _; exact Hb].
    - cbn [Nat.add]. rewrite Nat2Z.id. split; [intros _; exact Hesc | lia]. }
  unfold julia. rewrite julia_for_mandelbrot_for.
  destruct (Hfor z) as [Hj1 Hj2]. destruct (Hfor c) as [Hm1 Hm2].
  split; [exact Hj1|]. split; [exact Hj2|]. split; [exact Hm1 | exact Hm2].
Qed.

Lemma kernels_return_the_first_escape_witness :
  first_escape (QComplex (1 # 2) 0) (QComplex (1 # 2) 0) 3 /\
  forall j, (j < 3)%nat ->
    abs_gt_2 (orbit (QComplex (1 # 2) 0) (QComplex 0 0) (S j)) = false.
Proof.
  pose proof (kernels_return_the_first_escape qcomplex _
                (QComplex 0 0) (QComplex (1 # 2) 0)) as Hk.
  split.
  - destruct (Hk 7) as (_ & _ & Hm & _). apply Hm. reflexivity.
  - destruct (Hk 3) as (_ & Hj & _ & _). apply Hj. reflexivity.
Defined.

(** X3: [julia(z, c, k)] returns the index of the first update of the orbit
    of [z] after which [abs(z) > 2], for every cap [k] at or above that
    index, and returns [k] when none of the first [k] updates makes it so. *)
Theorem julia_returns_first_escape_or_cap :
  forall (C : Type) (Q : Quadratic C) (z c : C) (k : Z),
    (forall i, first_escape c z i -> Z.of_nat i <= k -> julia z c k = Z.of_nat i) /\
    ((forall j, (j < Z.to_nat k)%nat -> abs_gt_2 (orbit c z (S j)) = false) ->
     julia z c k = k).
Proof.
  intros C Q z c k. unfold julia, range. rewrite julia_for_mandelbrot_for.
  split.
  - intros i Hesc Hk.
    destruct (decide (Z.of_nat i = k)) as [<-|Hne].
    + rewrite Nat2Z.id. apply mandelbrot_for_bounded. apply Hesc.
    + rewrite (mandelbrot_for_escape c z k 0 (Z.to_nat k) i); [done | lia | done].
  - apply mandelbrot_for_bounded.
Qed.

Lemma julia_returns_first_escape_or_cap_witness :
  julia (QComplex 0 0) (QComplex (1 # 2) 0) 9 = 4 /\
  julia (QComplex 0 0) (QComplex (-1) 0) 6 = 6.
Proof.
  split.
  - apply (proj1 (julia_returns_first_escape_or_cap qcomplex _
                    (QComplex 0 0) (QComplex (1 # 2) 0) 9) 4%nat); [|lia].
    split; [reflexivity|].
    intros j Hj. do 4 (destruct j as [|j]; [reflexivity|]). lia.
  - apply (proj2 (julia_returns_first_escape_or_cap qcomplex _
                    (QComplex 0 0) (QComplex (-1) 0) 6)).
    intros j Hj. change (Z.to_nat 6) with 6%nat in Hj.
    do 6 (destruct j as [|j]; [reflexivity|]). lia.
Defined.

(** X4: one turn of the loop.  For [k >= 1], [julia(z, c, k)] is [0] when
    [abs(z**2 + c) > 2], and otherwise one more than [julia(z**2 + c, c, k - 1)];
    [mandelbrot(c, k)] is the same with [z = c]. *)
Theorem kernels_unroll :
  forall (C : Type) (Q : Quadratic C) (z c : C) (k : Z),
    1 <= k ->
    julia z c k =
      (if abs_gt_2 (add (pow2 z) c) then 0
       else 1 + julia (add (pow2 z) c) c (k - 1)) /\
    mandelbrot c k =
      (if abs_gt_2 (add (pow2 c) c) then 0
       else 1 + julia (add (pow2 c) c) c (k - 1)).
Proof.
  intros C Q z c k Hk.
  assert (Hfor : forall z0 : C,
    mandelbrot_for c z0 k (range k) =
    if abs_gt_2 (add (pow2 z0) c) then 0
    else 1 + mandelbrot_for c (add (pow2 z0) c) (k - 1) (range (k - 1))).
  { intros z0. unfold range.
    replace (Z.to_nat k) with (S (Z.to_nat (k - 1))) by lia.
    cbn [seq mandelbrot_for].
    destruct (abs_gt_2 (add (pow2 z0) c)); [reflexivity|].
    apply mandelbrot_for_shift. }
  unfold julia, mandelbrot. rewrite !julia_for_mandelbrot_for.
  split; apply Hfor.
Qed.

Lemma kernels_unroll_witness :
  julia (QComplex (1 # 2) 0) (QComplex (1 # 2) 0) 7
    = 1 + julia (QComplex (3 # 4) 0) (QComplex (1 # 2) 0) 6.
Proof.
  rewrite (proj1 (kernels_unroll qcomplex _
                    (QComplex (1 # 2) 0) (QComplex (1 # 2) 0) 7 ltac:(lia))).
  vm_compute. reflexivity.
Defined.

(** ** The kernels over the exact complex numbers *)

Section ComplexLaws.
Open Scope R_scope.

Lemma abs_gt_2_conj (z : complex) : abs_gt_2 (conj z) = abs_gt_2 z.
Proof.
  cbn. replace (- imag z * - imag z) with (imag z * imag z) by ring.
  reflexivity.
Qed.

Lemma step_conj (z c : complex) :
  conj (add (pow2 z) c) = add (pow2 (conj z)) (conj c).
Proof. unfold conj. cbn. f_equal; ring. Qed.

Lemma step_neg (z c : complex) : add (pow2 (neg z)) c = add (pow2 z) c.
Proof. unfold neg. cbn. f_equal; ring. Qed.

End ComplexLaws.

(** X6: over the exact complex numbers the kernels do not tell a point from
    its mirror image in the real axis: [mandelbrot] returns the same for [c]
    and its conjugate, [julia] the same for [(z, c)] and their conjugates. *)
Theorem kernels_conjugate_symmetric :
  forall (z c : complex) (k : Z),
    mandelbrot (conj c) k = mandelbrot c k /\
    julia (conj z) (conj c) k = julia z c k.
Proof.
  intros z c k.
  pose proof (mandelbrot_for_conjugate conj c (conj c)
                (fun z => step_conj z c) abs_gt_2_conj) as Hsym.
  split.
  - apply Hsym.
  - unfold julia. rewrite !julia_for_mandelbrot_for. apply Hsym.
Qed.

(** X7: over the exact complex numbers [julia] returns the same for [z] and
    for [-z]: the first update squares the difference away. *)
Theorem julia_point_symmetric :
  forall (z c : complex) (k : Z), julia (neg z) c k = julia z c k.
Proof.
  intros z c k. unfold julia.
  destruct (range k) as [|i idx]; [reflexivity|].
  cbn [julia_for]. rewrite step_neg. reflexivity.
Qed.

(** ** The sampler and the plot, for any arithmetic *)

Section SamplerLaws.
Context {F C : Type} `{Scalar F} `{Quadratic C} `{Plane F C}.

Lemma tabulate_fmap (g : Z -> Z) n f :
  (fun row : list Z => g <$> row) <$> tabulate n n f =
  tabulate n n (fun i j => g (f i j)).
Proof.
  unfold tabulate. rewrite <- list_fmap_compose.
  apply list_fmap_ext; intros _ i _. cbn.
  by rewrite <- list_fmap_compose.
Qed.

Lemma tabulate_ext n f g :
  (forall i j, (i < n)%nat -> (j < n)%nat -> f i j = g i j) ->
  tabulate n n f = tabulate n n g.
Proof.
  intros Hfg. unfold tabulate.
  apply list_fmap_ext; intros k i Hi. apply lookup_seq in Hi as [-> Hi].
  apply list_fmap_ext; intros k' j Hj. apply lookup_seq in Hj as [-> Hj].
  by apply Hfg.
Qed.

Lemma np_where_gt_min (image : matrix) t :
  np_where_gt image t = (fun row : list Z => (fun v => Z.min v t) <$> row) <$> image.
Proof.
  unfold np_where_gt.
  apply list_fmap_ext; intros _ row _. apply list_fmap_ext; intros _ v _.
  destruct (Z.gtb_spec v t); lia.
Qed.

(** The grid is read off the bounds, the zoom and [n] alone. *)
Lemma grid_same_view (self self' : Fractals F C) :
  same_view self self' -> grid self = grid self'.
Proof.
  intros (Hx1 & Hx2 & Hy1 & Hy2 & Hz & Hn & _).
  unfold grid. by rewrite Hx1, Hx2, Hy1, Hy2, Hz, Hn.
Qed.

(** A kernel never returns more than the cap, whatever the cap. *)
Lemma pixel_value_le_cap (self : Fractals F C) x y mem i j :
  _fractal_type self = "mandelbrot" \/ _fractal_type self = "julia" ->
  pixel_value self x y mem i j <= _k self.
Proof.
  intros Ht. unfold pixel_value, mandelbrot, julia.
  rewrite julia_for_mandelbrot_for.
  destruct Ht as [-> | ->]; cbn;
    match goal with
    | |- mandelbrot_for ?c ?z ?k _ <= _ =>
        rewrite (mandelbrot_for_any_cap c z k k) by lia; lia
    end.
Qed.

(** Lowering the cap of an object caps its cells. *)
Lemma pixel_value_lower_cap (self : Fractals F C) x y mem i j t :
  _fractal_type self = "mandelbrot" \/ _fractal_type self = "julia" ->
  t <= _k self ->
  pixel_value (object_after (update_iter t) self) x y mem i j =
  Z.min t (pixel_value self x y mem i j).
Proof.
  intros Ht Hk. unfold pixel_value, mandelbrot, julia.
  rewrite !julia_for_mandelbrot_for.
  change (_fractal_type (object_after (update_iter t) self))
    with (_fractal_type self).
  change (_k (object_after (update_iter t) self)) with t.
  change (_c (object_after (update_iter t) self)) with (_c self).
  destruct Ht as [E | E]; rewrite E; cbn; by apply mandelbrot_for_any_cap.
Qed.

(** When [generate_fractal] raises, so does [plot_fractal], and the object
    is as it was. *)
Lemma plot_fractal_negative (self : Fractals F C) mem :
  _n self < 0 ->
  returned (plot_fractal mem) self = inl ValueError /\
  object_after (plot_fractal mem) self = self.
Proof.
  intros Hn.
  pose proof (generate_fractal_negative self mem Hn) as Hret.
  pose proof (generate_fractal_object self mem) as Hobj.
  unfold returned, object_after, plot_fractal, mbind, method_bind in *.
  destruct (generate_fractal mem self) as [r self']. cbn in Hret, Hobj. subst.
  split; reflexivity.
Qed.

End SamplerLaws.



(** X9: with the kind ['mandelbrot'] or ['julia'], [generate_fractal] looks
    at nothing but the bounds, the zoom, [n], [k], the kind and, for the kind
    ['julia'] only, the constant [c].  Two objects that agree on these return
    the same, whatever the memory [np.empty] hands out to each call: the
    Julia constant does not matter to a Mandelbrot field, nor do the figure
    size, the colour map, the threshold and the colour bar to either. *)
Theorem generate_fractal_reads_the_view_only :
  forall (F C : Type) (S : Scalar F) (Q : Quadratic C) (P : Plane F C)
         (self self' : Fractals F C) (mem mem' : nat -> nat -> Z),
    _fractal_type self = "mandelbrot" \/ _fractal_type self = "julia" ->
    same_view self self' ->
    returned (generate_fractal mem) self = returned (generate_fractal mem') self'.
Proof.
  intros F C S Q P self self' mem mem' Hkind Hv.
  pose proof (grid_same_view self self' Hv) as Hgrid.
  destruct Hv as (_ & _ & _ & _ & _ & Hn & Hk & Ht & Hc).
  destruct (Z.lt_ge_cases (_n self) 0) as [Hneg|Hpos].
  - rewrite !generate_fractal_negative by lia. reflexivity.
  - destruct (grid_returns self Hpos) as (x & y & Hg & _).
    rewrite (generate_fractal_returned self mem x y Hpos Hg).
    rewrite (generate_fractal_returned self' mem' x y) by (rewrite <- ?Hgrid; done || lia).
    rewrite <- Hn. f_equal. apply tabulate_ext. intros i j _ _.
    unfold pixel_value. rewrite <- Ht, <- Hk.
    destruct Hkind as [E | E]; rewrite E; cbn; [reflexivity|].
    by rewrite (Hc E).
Qed.

Lemma generate_fractal_reads_the_view_only_witness :
  returned (generate_fractal (fun _ _ => 7)) (unit_square 2 10 "mandelbrot") =
  returned (generate_fractal (fun _ _ => -1))
    (init 0%R 1%R 0%R 1%R (Complex 1 1) 2 10 4 3 "mandelbrot" "viridis" (Some 5)).
Proof.
  apply generate_fractal_reads_the_view_only.
  - left. reflexivity.
  - unfold same_view. cbn. repeat split. discriminate.
Defined.



(** X11: a threshold at or below the cap shows the field of that lower
    cap.  With one of the two kinds and [threshold = t <= k], what
    [plot_fractal] hands to [imshow] is what [generate_fractal] returns once
    [update_iter(t)] has set the cap to [t]; both raise for a negative [n]. *)
Theorem threshold_is_a_lower_cap :
  forall (F C : Type) (S : Scalar F) (Q : Quadratic C) (P : Plane F C)
         (self : Fractals F C) (mem : nat -> nat -> Z) (t : Z),
    _fractal_type self = "mandelbrot" \/ _fractal_type self = "julia" ->
    _threshold self = Some t -> t <= _k self ->
    returned (plot_fractal mem) self =
    returned (generate_fractal mem) (object_after (update_iter t) self).
Proof.
  intros F C S Q P self mem t Ht Hthr Hk.
  set (self' := object_after (update_iter t) self).
  destruct (Z.lt_ge_cases (_n self) 0) as [Hneg|Hn].
  { rewrite (proj1 (plot_fractal_negative self mem Hneg)).
    by rewrite (generate_fractal_negative self' mem Hneg). }
  destruct (grid_returns self Hn) as (x & y & Hg & _).
  rewrite (plot_fractal_returned self mem _ (generate_fractal_returned self mem x y Hn Hg)).
  rewrite (generate_fractal_returned self' mem x y Hn Hg). f_equal.
  rewrite Hthr. cbn [threshold_clamp].
  rewrite np_where_gt_min, (tabulate_fmap (fun v => Z.min v t)).
  apply tabulate_ext. intros i j _ _.
  rewrite (pixel_value_lower_cap self x y mem i j t) by done. lia.
Qed.

Lemma threshold_is_a_lower_cap_witness :
  returned (plot_fractal (fun _ _ => 7))
    (init 0%R 1%R 0%R 1%R (Complex 0 0) 2 10 8 8 "mandelbrot" "hot" (Some 5)) =
  returned (generate_fractal (fun _ _ => 7))
    (object_after (update_iter 5)
       (init 0%R 1%R 0%R 1%R (Complex 0 0) 2 10 8 8 "mandelbrot" "hot" (Some 5))).
Proof.
  apply threshold_is_a_lower_cap.
  - left. reflexivity.
  - reflexivity.
  - cbn. lia.
Defined.

(** X12: a threshold that does nothing.  Without a threshold, or with one
    of the two kinds and a threshold at or above the cap, [plot_fractal]
    hands to [imshow] the field of [generate_fractal] as it is. *)
Theorem threshold_at_or_above_cap_shows_the_field :
  forall (F C : Type) (S : Scalar F) (Q : Quadratic C) (P : Plane F C)
         (self : Fractals F C) (mem : nat -> nat -> Z),
    _threshold self = None \/
    ((_fractal_type self = "mandelbrot" \/ _fractal_type self = "julia") /\
     exists t, _threshold self = Some t /\ _k self <= t) ->
    returned (plot_fractal mem) self = returned (generate_fractal mem) self.
Proof.
  intros F C S Q P self mem Hthr.
  destruct (Z.lt_ge_cases (_n self) 0) as [Hneg|Hn].
  { rewrite (proj1 (plot_fractal_negative self mem Hneg)).
    by rewrite (generate_fractal_negative self mem Hneg). }
  destruct (grid_returns self Hn) as (x & y & Hg & _).
  pose proof (generate_fractal_returned self mem x y Hn Hg) as Hret.
  rewrite (plot_fractal_returned self mem _ Hret), Hret. f_equal.
  destruct Hthr as [-> | (Ht & t & -> & Hk)]; [reflexivity|].
  cbn [threshold_clamp].
  rewrite np_where_gt_min, (tabulate_fmap (fun v => Z.min v t)).
  apply tabulate_ext. intros i j _ _.
  pose proof (pixel_value_le_cap self x y mem i j Ht). lia.
Qed.

Lemma threshold_at_or_above_cap_shows_the_field_witness :
  returned (plot_fractal (fun _ _ => 7)) (unit_square 2 10 "julia") =
  returned (generate_fractal (fun _ _ => 7)) (unit_square 2 10 "julia") /\
  returned (plot_fractal (fun _ _ => 7))
    (init 0%R 1%R 0%R 1%R (Complex 0 0) 2 10 8 8 "julia" "hot" (Some 10)) =
  returned (generate_fractal (fun _ _ => 7))
    (init 0%R 1%R 0%R 1%R (Complex 0 0) 2 10 8 8 "julia" "hot" (Some 10)).
Proof.
  split.
  - apply threshold_at_or_above_cap_shows_the_field. left. reflexivity.
  - apply threshold_at_or_above_cap_shows_the_field. right.
    split; [right; reflexivity|]. exists 10. split; [reflexivity | cbn; lia].
Defined.
